(** * Verification of [extract-rust-blocks.py]

    A shallow embedding of the Markdown scanner of
    [.github/test-fixtures/extract-rust-blocks.py] and of its command-line
    wrapper, followed by the properties the specification states about them.

    Conventions of the embedding:
    - a Python [str] is a [string]; every character the scanner inspects
      (backtick, comma, newline, the letters of the tag) is ASCII;
    - a Python [int] line number is a [nat] (it is produced by
      [enumerate(lines, 1)] and only ever compared or printed);
    - the generator [extract_rust_blocks] is the list of the tuples it yields,
      in the order it yields them;
    - the locals [in_block], [block_start], [block_content], [attributes] are
      the fields of the record [state], threaded through the loop. *)

From Stdlib Require Import String Ascii List Bool Arith Lia.
From Stdlib Require Import Sorting.Sorted.
From Stdlib Require DecimalString DecimalNat.
Import ListNotations.

Local Open Scope string_scope.
Local Open Scope list_scope.

(* ================================================================== *)
(** ** Python string primitives used by the script *)
(* ================================================================== *)

Module PyStr.

(** The newline character, ['\n']. *)
Definition nl : ascii := "010"%char.

(** [content.split('\n')]: cuts at every newline; never returns the empty
    list (the empty string gives one empty line). *)
Fixpoint split_nl (s : string) : list string :=
  match s with
  | EmptyString => [EmptyString]
  | String c s' =>
      if Ascii.eqb c nl then EmptyString :: split_nl s'
      else match split_nl s' with
           | [] => [String c EmptyString]
           | l :: ls => String c l :: ls
           end
  end.

(** The one-character string ["\n"]. *)
Definition lf : string := String nl EmptyString.

(** ['\n'.join(xs)]. *)
Definition join_nl (xs : list string) : string := String.concat lf xs.

(** [s.startswith(p)]. *)
Definition startswith (s p : string) : bool := String.prefix p s.

(** Removes the literal [p] from the front of [s], when it is there. *)
Fixpoint strip_prefix (p s : string) : option string :=
  match p with
  | EmptyString => Some s
  | String a p' =>
      match s with
      | EmptyString => None
      | String b s' => if Ascii.eqb a b then strip_prefix p' s' else None
      end
  end.

(** A line without a newline character, as [split_nl] produces them. *)
Fixpoint no_nl (s : string) : bool :=
  match s with
  | EmptyString => true
  | String c s' => negb (Ascii.eqb c nl) && no_nl s'
  end.

(** [str(n)] / [f"{n}"] for a non-negative integer. *)
Definition str_of_int (n : nat) : string :=
  DecimalString.NilZero.string_of_uint (Nat.to_uint n).

End PyStr.

(* ================================================================== *)
(** ** The two regular expressions of the scanner *)
(* ================================================================== *)

Module Fence.
Import PyStr.

(** The closing fence, the literal ['```']. *)
Definition closing : string := "```".

(** The common head of both patterns, [^```[Rr]ust]: returns the text that
    follows the tag. *)
Definition match_tag (line : string) : option string :=
  match strip_prefix "```" line with
  | Some (String c rest) =>
      if Ascii.eqb c "R" || Ascii.eqb c "r" then strip_prefix "ust" rest
      else None
  | _ => None
  end.

(** The anchor [$] of Python's [re] (no MULTILINE flag): the end of the
    string, or just before a newline that ends the string. *)
Definition at_eol (s : string) : bool :=
  String.eqb s EmptyString || String.eqb s (String nl EmptyString).

(** The tail of both patterns, a capturing group around [.*] followed by
    [$]: [.] is any character but a newline, the star is greedy, and [$]
    can only hold where the run of non-newlines stops.  Returns the text
    captured by the group. *)
Fixpoint dot_star_eol (s : string) : option string :=
  match s with
  | EmptyString => Some EmptyString
  | String c s' =>
      if Ascii.eqb c nl
      then (if String.eqb s' EmptyString then Some EmptyString else None)
      else option_map (String c) (dot_star_eol s')
  end.

(** The first [re.match] of the loop body is not [None]: the pattern is
    [^```[Rr]ust], then an optional group (a comma and [.*]), then [$]. *)
Definition re_match_open (line : string) : bool :=
  match match_tag line with
  | Some rest =>
      match rest with
      | String c t =>
          if Ascii.eqb c ","
          then (match dot_star_eol t with Some _ => true | None => false end)
          else at_eol rest
      | EmptyString => true
      end
  | None => false
  end.

(** The second [re.match]: the pattern is [^```[Rr]ust,], then group 1
    around [.*], then [$].  [Some g] with [g] the text of group 1 when the
    pattern matches, [None] otherwise. *)
Definition re_match_attrs (line : string) : option string :=
  match match_tag line with
  | Some (String c t) => if Ascii.eqb c "," then dot_star_eol t else None
  | _ => None
  end.

(** [match.group(1) if match else ""]. *)
Definition open_attrs (line : string) : string :=
  match re_match_attrs line with
  | Some g => g
  | None => EmptyString
  end.

(** A line that does not start with three backticks. *)
Definition plain (line : string) : Prop := startswith line "```" = false.

End Fence.

(* ================================================================== *)
(** ** The scanner *)
(* ================================================================== *)

Module Scanner.
Import PyStr Fence.

(** A yielded tuple [(line_number, attributes, content)]. *)
Definition block : Type := nat * string * string.

Definition start_line (b : block) : nat := fst (fst b).
Definition block_attrs (b : block) : string := snd (fst b).
Definition block_text (b : block) : string := snd b.

(** The locals of [extract_rust_blocks]. *)
Record state : Type := mkState {
  in_block : bool;
  block_start : nat;
  block_content : list string;
  attributes : string
}.

(** The values the locals are given before the loop. *)
Definition init : state :=
  {| in_block := false; block_start := 0;
     block_content := []; attributes := EmptyString |}.

(** The tuple built from the locals at a [yield]. *)
Definition current_block (st : state) : block :=
  (block_start st, attributes st, join_nl (block_content st)).

(** One iteration of the [for] loop on line number [i] and text [line]:
    the locals after it and what it yields. *)
Definition step (st : state) (i : nat) (line : string)
  : state * list block :=
  if re_match_open line then
    ({| in_block := true; block_start := i; block_content := [];
        attributes := open_attrs line |}, [])
  else if String.eqb line closing && in_block st then
    ({| in_block := false; block_start := block_start st;
        block_content := block_content st;
        attributes := attributes st |}, [current_block st])
  else
    let st1 :=
      if in_block st
      then {| in_block := in_block st; block_start := block_start st;
              block_content := block_content st ++ [line];
              attributes := attributes st |}
      else st in
    let st2 :=
      if startswith line "```" && in_block st1
         && negb (String.eqb line closing)
      then {| in_block := false; block_start := block_start st1;
              block_content := block_content st1;
              attributes := attributes st1 |}
      else st1 in
    (st2, []).

(** The loop [for i, line in enumerate(lines, i)], from the locals [st]. *)
Fixpoint loop (st : state) (i : nat) (lines : list string)
  : state * list block :=
  match lines with
  | [] => (st, [])
  | line :: rest =>
      let (st1, out1) := step st i line in
      let (st2, out2) := loop st1 (S i) rest in
      (st2, out1 ++ out2)
  end.

(** The code after the loop: an unclosed block is yielded at EOF. *)
Definition at_eof (st : state) : list block :=
  if in_block st then [current_block st] else [].

(** The body of the generator from given locals and a given first line
    number. *)
Definition scan_from (st : state) (i : nat) (lines : list string)
  : list block :=
  let (st', out) := loop st i lines in out ++ at_eof st'.

(** The body of the generator on the lines of the document. *)
Definition scan_lines (lines : list string) : list block :=
  scan_from init 1 lines.

(** [extract_rust_blocks(content)], as the list of what it yields. *)
Definition extract_rust_blocks (content : string) : list block :=
  scan_lines (split_nl content).

(** The locals when the loop has consumed the whole document. *)
Definition final_state (content : string) : state :=
  fst (loop init 1 (split_nl content)).

(** What the loop yields before EOF handling. *)
Definition yielded (lines : list string) : list block :=
  snd (loop init 1 lines).

(** The state after an opening fence on line [i]. *)
Definition opened (i : nat) (line : string) : state :=
  {| in_block := true; block_start := i; block_content := [];
     attributes := open_attrs line |}.

(** The state [st] with [in_block] cleared. *)
Definition leave (st : state) : state :=
  {| in_block := false; block_start := block_start st;
     block_content := block_content st; attributes := attributes st |}.

(** The state [st] with [lines] appended to [block_content]. *)
Definition extend (st : state) (lines : list string) : state :=
  {| in_block := in_block st; block_start := block_start st;
     block_content := block_content st ++ lines;
     attributes := attributes st |}.

End Scanner.

(* ================================================================== *)
(** ** The loop body as a transition relation *)
(* ================================================================== *)

Module Semantics.
Import PyStr Fence Scanner.

(** [trans st i line st' out]: one constructor per path through the body
    of the [for] loop, with the conditions under which the path is taken.
    - [T_open]: the first [if] holds, up to its [continue];
    - [T_close]: the second [if] holds, up to its [continue];
    - [T_skip]: neither holds and [in_block] is false, so the last two
      [if]s do nothing;
    - [T_accumulate]: the third [if] appends, the fourth does not fire;
    - [T_malformed]: the third [if] appends and the fourth clears
      [in_block]. *)
Inductive trans (st : state) (i : nat) (line : string)
  : state -> list block -> Prop :=
| T_open :
    re_match_open line = true ->
    trans st i line (opened i line) []
| T_close :
    re_match_open line = false ->
    line = closing -> in_block st = true ->
    trans st i line (leave st) [current_block st]
| T_skip :
    re_match_open line = false ->
    in_block st = false ->
    trans st i line st []
| T_accumulate :
    re_match_open line = false ->
    in_block st = true -> line <> closing ->
    startswith line "```" = false ->
    trans st i line (extend st [line]) []
| T_malformed :
    re_match_open line = false ->
    in_block st = true -> line <> closing ->
    startswith line "```" = true ->
    trans st i line (leave (extend st [line])) [].

(** Two states are interchangeable when they are equal or both outside a
    block: the locals of a block that was left are never read again. *)
Definition same_future (s t : state) : Prop :=
  s = t \/ (in_block s = false /\ in_block t = false).

End Semantics.

(* ================================================================== *)
(** ** The generator with its failures and its iterations *)
(* ================================================================== *)

Module Generator.
Import PyStr Fence Scanner.

(** The exception an operation of the generator body can raise:
    [m.group(1)] when [m] is [None] ('NoneType' object has no attribute
    'group').  The other operations ([split], [re.match], [==],
    [startswith], [append], [join] of strings) raise nothing on strings. *)
Inductive py_error : Type :=
| AttributeError.

(** The value of a Python expression, or the exception it raises. *)
Inductive result (A : Type) : Type :=
| Ok (a : A)
| Raise (e : py_error).

Arguments Ok {A} a.
Arguments Raise {A} e.

Definition bind {A B : Type} (r : result A) (k : A -> result B)
  : result B :=
  match r with
  | Ok a => k a
  | Raise e => Raise e
  end.

(** [m.group(1)], for [m] the result of the second [re.match]: the text
    of group 1 on a match object, [AttributeError] on [None]. *)
Definition group_1 (m : option string) : result string :=
  match m with
  | Some g => Ok g
  | None => Raise AttributeError
  end.

(** One iteration of the [for] loop, with the exceptions of its
    operations: the body of the loop read statement by statement. *)
Definition step_py (st : state) (i : nat) (line : string)
  : result (state * list block) :=
  if re_match_open line then
    let m := re_match_attrs line in
    bind (match m with
          | Some _ => group_1 m
          | None => Ok EmptyString
          end)
         (fun attrs =>
            Ok ({| in_block := true; block_start := i;
                   block_content := []; attributes := attrs |}, []))
  else if String.eqb line closing && in_block st then
    Ok ({| in_block := false; block_start := block_start st;
           block_content := block_content st;
           attributes := attributes st |}, [current_block st])
  else
    let st1 :=
      if in_block st
      then {| in_block := in_block st; block_start := block_start st;
              block_content := block_content st ++ [line];
              attributes := attributes st |}
      else st in
    let st2 :=
      if startswith line "```" && in_block st1
         && negb (String.eqb line closing)
      then {| in_block := false; block_start := block_start st1;
              block_content := block_content st1;
              attributes := attributes st1 |}
      else st1 in
    Ok (st2, []).

(** The frame of a running generator: the locals, the number of lines
    the iterator of [enumerate(lines, 1)] has handed out, and what was
    yielded so far. *)
Record frame : Type := mkFrame {
  locals : state;
  consumed : nat;
  yields : list block
}.

(** Where a generator is after a turn of its loop. *)
Inductive status : Type :=
| Running (f : frame)
| Finished (out : list block)
| Raised (e : py_error).

(** One turn of the [for] statement: the iterator is asked for the next
    line; when it has none the loop ends and the code after it runs to
    the end of the generator, otherwise the body runs on that line, with
    the next line number. *)
Definition turn (lines : list string) (f : frame) : status :=
  match nth_error lines (consumed f) with
  | None => Finished (yields f ++ at_eof (locals f))
  | Some line =>
      match step_py (locals f) (S (consumed f)) line with
      | Raise e => Raised e
      | Ok (st, out) =>
          Running {| locals := st; consumed := S (consumed f);
                     yields := yields f ++ out |}
      end
  end.

(** At most [fuel] turns from the frame [f]: [None] when the generator
    is still running after them. *)
Fixpoint run (fuel : nat) (lines : list string) (f : frame)
  : option status :=
  match fuel with
  | 0 => None
  | S fuel' =>
      match turn lines f with
      | Running f' => run fuel' lines f'
      | s => Some s
      end
  end.

(** [list(extract_rust_blocks(content))], given [fuel] turns. *)
Definition call (fuel : nat) (content : string) : option status :=
  run fuel (split_nl content)
      {| locals := init; consumed := 0; yields := [] |}.

End Generator.

(* ================================================================== *)
(** ** Fenced regions of a document *)
(* ================================================================== *)

Module Regions.
Import PyStr Fence Scanner.

(** The tuple of a fenced region: the opening fence [opener] comes after
    the lines [pre], and [body] are the lines that follow it. *)
Definition block_of (pre : list string) (opener : string)
           (body : list string) : block :=
  (S (length pre), open_attrs opener, join_nl body).

(** [b] is the region of [lines] from an opening fence to the first later
    line that starts with three backticks, which is a closing fence. *)
Definition closed_span (lines : list string) (b : block) : Prop :=
  exists pre opener body post,
    lines = pre ++ opener :: body ++ closing :: post
    /\ re_match_open opener = true
    /\ Forall plain body
    /\ b = block_of pre opener body.

(** [b] is the region of [lines] from an opening fence to the end of the
    document, with no line that starts with three backticks after it. *)
Definition open_span (lines : list string) (b : block) : Prop :=
  exists pre opener body,
    lines = pre ++ opener :: body
    /\ re_match_open opener = true
    /\ Forall plain body
    /\ b = block_of pre opener body.

(** The locals describe the block that is open after [lines]. *)
Definition tracks (lines : list string) (st : state) : Prop :=
  in_block st = true ->
  exists pre opener body,
    lines = pre ++ opener :: body
    /\ re_match_open opener = true
    /\ Forall plain body
    /\ st = extend (opened (S (length pre)) opener) body.

(** The specification's wording of the attributes of a fence line: the
    substring that follows the first comma of the line, and the empty
    string when the line has no comma. *)
Fixpoint after_first_comma (s : string) : string :=
  match s with
  | EmptyString => EmptyString
  | String c s' => if Ascii.eqb c "," then s' else after_first_comma s'
  end.

(** One closed fence of a document with what precedes it: the lines
    [f_gap] outside any block, the opening fence [f_open], and the lines
    [f_body] up to the closing fence. *)
Record fenced : Type := mkFenced {
  f_gap : list string;
  f_open : string;
  f_body : list string
}.

(** Properly closed, no nesting: no opening fence among the lines outside,
    an opening fence, and no line of the body starts with three backticks
    (the first that does is the closing fence). *)
Definition well_fenced (f : fenced) : Prop :=
  Forall (fun l => re_match_open l = false) (f_gap f)
  /\ re_match_open (f_open f) = true
  /\ Forall plain (f_body f).

(** The lines of a document with the fences [fs] and the final lines
    [tail]. *)
Fixpoint document (fs : list fenced) (tail : list string) : list string :=
  match fs with
  | [] => tail
  | f :: fs' =>
      f_gap f ++ f_open f :: f_body f ++ closing :: document fs' tail
  end.

(** The tuples of the fences [fs], when [off] lines precede them. *)
Fixpoint blocks_of (off : nat) (fs : list fenced) : list block :=
  match fs with
  | [] => []
  | f :: fs' =>
      (off + length (f_gap f) + 1, open_attrs (f_open f),
       join_nl (f_body f))
      :: blocks_of (off + length (f_gap f) + length (f_body f) + 2) fs'
  end.

End Regions.

(* ================================================================== *)
(** ** The command-line wrapper *)
(* ================================================================== *)

Module Cli.
Import PyStr Fence Scanner.

(** The exceptions that opening and reading the file can raise, by their
    place in Python's hierarchy: [FileNotFoundError] is a subclass of
    [OSError], [IOError] is another name of [OSError], and
    [UnicodeDecodeError] is a subclass of [ValueError], outside
    [OSError]. The argument is [str(e)]. *)
Inductive exception : Type :=
| FileNotFoundError (msg : string)
| OSError (msg : string)
| UnicodeDecodeError (msg : string).

(** [isinstance(e, FileNotFoundError)]. *)
Definition is_FileNotFoundError (e : exception) : bool :=
  match e with FileNotFoundError _ => true | _ => false end.

(** [isinstance(e, IOError)]. *)
Definition is_IOError (e : exception) : bool :=
  match e with
  | FileNotFoundError _ | OSError _ => true
  | UnicodeDecodeError _ => false
  end.

Definition str_of_exception (e : exception) : string :=
  match e with
  | FileNotFoundError m | OSError m | UnicodeDecodeError m => m
  end.

(** What [open(markdown_file, 'r', encoding='utf-8')] followed by
    [f.read()] does: the decoded text, or an exception. *)
Inductive read_result : Type :=
| ReadOk (content : string)
| Raises (e : exception).

(** How [main] ends: it returns, it calls [sys.exit(code)], or an
    exception leaves it uncaught (the interpreter then prints a traceback
    of several lines on stderr and exits with status 1); [FlushFailed t]
    is the ending [t] followed by a failure of the interpreter to flush
    stdout at shutdown, which turns the status into 120. *)
Inductive termination : Type :=
| Returned
| SysExit (code : nat)
| Uncaught (e : exception)
| FlushFailed (t : termination).

Definition exit_status (t : termination) : nat :=
  match t with
  | Returned => 0
  | SysExit code => code
  | Uncaught _ => 1
  | FlushFailed _ => 120
  end.

(** What a run of [main] writes itself, and how it ends: [stdout] is the
    text given to the calls of [sys.stdout.write] that returned, [stderr]
    the text the script printed on stderr. *)
Record outcome : Type := mkOutcome {
  stdout : string;
  stderr : string;
  ending : termination
}.

(** What the standard output does to the script: [write_raises k] is the
    exception that the call number [k] (from 0) of [sys.stdout.write]
    raises, if it raises, and [flush_fails] tells whether flushing stdout
    at shutdown fails. *)
Record stdout_env : Type := mkStdoutEnv {
  write_raises : nat -> option exception;
  flush_fails : bool
}.

(** A standard output on which every write and the final flush succeed. *)
Definition reliable : stdout_env :=
  {| write_raises := fun _ => None; flush_fails := false |}.

Definition tab : string := String "009"%char EmptyString.
Definition nul : string := String "000"%char EmptyString.

(** [f"{line_num}\t{attrs}\t{block_content}\0"]. *)
Definition record_of (b : block) : string :=
  str_of_int (start_line b) ++ tab ++ block_attrs b ++ tab
    ++ block_text b ++ nul.

(** The loop [for ... in extract_rust_blocks(content): sys.stdout.write(...)]
    on the records [recs], the first of them written by call number [k]:
    the text of the calls that returned, and the exception that ended the
    loop, if one did.  Nothing catches it. *)
Fixpoint write_all (env : stdout_env) (k : nat) (recs : list string)
  : string * option exception :=
  match recs with
  | [] => (EmptyString, None)
  | r :: rest =>
      match write_raises env k with
      | Some e => (EmptyString, Some e)
      | None =>
          let (written, fault) := write_all env (S k) rest in
          ((r ++ written)%string, fault)
      end
  end.

(** [main()], given [sys.argv], what reading each path does and what the
    standard output does.  The final flush concerns a run that called
    [sys.stdout.write]. *)
Definition main (argv : list string) (read : string -> read_result)
           (env : stdout_env) : outcome :=
  match argv with
  | [_; markdown_file] =>
      match read markdown_file with
      | Raises e =>
          if is_FileNotFoundError e then
            {| stdout := EmptyString;
               stderr := "Error: File not found: " ++ markdown_file ++ lf;
               ending := SysExit 1 |}
          else if is_IOError e then
            {| stdout := EmptyString;
               stderr := "Error reading file: " ++ str_of_exception e
                           ++ lf;
               ending := SysExit 1 |}
          else
            {| stdout := EmptyString; stderr := EmptyString;
               ending := Uncaught e |}
      | ReadOk content =>
          let recs := map record_of (extract_rust_blocks content) in
          let (written, fault) := write_all env 0 recs in
          let ended :=
            match fault with
            | Some e => Uncaught e
            | None => Returned
            end in
          {| stdout := written;
             stderr := EmptyString;
             ending :=
               match recs with
               | [] => ended
               | _ :: _ => if flush_fails env then FlushFailed ended
                           else ended
               end |}
      end
  | _ =>
      {| stdout := EmptyString;
         stderr := "Usage: extract-rust-blocks.py <markdown-file>" ++ lf;
         ending := SysExit 1 |}
  end.

End Cli.

(* ================================================================== *)
(** ** Vocabulary for further properties of the script *)
(* ================================================================== *)

Module Derived.
Import PyStr Fence Scanner.

(** The tuple [b] with its line number moved down by [k] lines. *)
Definition shift (k : nat) (b : block) : block :=
  (k + start_line b, block_attrs b, block_text b).

(** The locals [st] with [block_start] moved down by [k] lines. *)
Definition shift_state (k : nat) (st : state) : state :=
  {| in_block := in_block st; block_start := k + block_start st;
     block_content := block_content st; attributes := attributes st |}.

(** [c in s], for a character [c]. *)
Fixpoint occurs (c : ascii) (s : string) : bool :=
  match s with
  | EmptyString => false
  | String a s' => Ascii.eqb c a || occurs c s'
  end.

(** A tuple whose attributes hold no tab and whose text holds no NUL, the
    two delimiters [main] writes after them. *)
Definition delimited (b : block) : Prop :=
  occurs "009" (block_attrs b) = false
  /\ occurs "000" (block_text b) = false.

(** What the output loop of [main] writes on stdout for the tuples [bs]
    when no write fails: one [sys.stdout.write] per tuple, in order. *)
Definition records (bs : list block) : string :=
  String.concat EmptyString (map Cli.record_of bs).

End Derived.

Import Semantics Regions Derived.

(* ================================================================== *)
(** ** Facts about the string primitives and the patterns *)
(* ================================================================== *)

Section FenceFacts.
Import PyStr Fence.

Lemma split_nl_nonempty (s : string) : split_nl s <> [].
Proof.
  induction s as [|c s IH]; simpl; [discriminate|].
  destruct (Ascii.eqb c nl); [discriminate|].
  destruct (split_nl s); discriminate.
Qed.

Lemma split_nl_no_nl (s : string) :
  Forall (fun l => no_nl l = true) (split_nl s).
Proof.
  induction s as [|c s IH]; simpl.
  - repeat constructor.
  - destruct (Ascii.eqb c nl) eqn:E.
    + constructor; [reflexivity|assumption].
    + destruct (split_nl s) as [|l ls].
      * repeat constructor. simpl. now rewrite E.
      * inversion IH; subst. constructor; [|assumption].
        simpl. rewrite E. assumption.
Qed.

Lemma strip_prefix_app (p s r : string) :
  strip_prefix p s = Some r <-> s = (p ++ r)%string.
Proof.
  revert s. induction p as [|a p IH]; intros s; simpl.
  - split; [intros [= ->]|intros ->]; reflexivity.
  - destruct s as [|b s]; [split; discriminate|].
    destruct (Ascii.eqb a b) eqn:E.
    + apply Ascii.eqb_eq in E. subst b. rewrite IH.
      split; [intros ->; reflexivity|intros [= ->]; reflexivity].
    + apply Ascii.eqb_neq in E.
      split; [discriminate|intros [= <- _]; congruence].
Qed.

Lemma strip_prefix_startswith (p s r : string) :
  strip_prefix p s = Some r -> startswith s p = true.
Proof.
  unfold startswith. revert s.
  induction p as [|a p IH]; intros s; simpl.
  - destruct s; reflexivity.
  - destruct s as [|b s]; [discriminate|].
    destruct (Ascii.eqb a b) eqn:E; [|discriminate].
    apply Ascii.eqb_eq in E. subst b. intros H. simpl.
    destruct (ascii_dec a a); [now apply IH|congruence].
Qed.

(** An opening fence starts with three backticks. *)
Lemma re_match_open_startswith (line : string) :
  re_match_open line = true -> startswith line "```" = true.
Proof.
  unfold re_match_open, match_tag.
  destruct (strip_prefix "```" line) as [r|] eqn:E; [|discriminate].
  intros _. eapply strip_prefix_startswith; eassumption.
Qed.

(** The closing fence is not an opening fence. *)
Lemma closing_not_open : re_match_open closing = false.
Proof. reflexivity. Qed.

Lemma plain_not_open (line : string) :
  plain line -> re_match_open line = false.
Proof.
  unfold plain. intros H.
  destruct (re_match_open line) eqn:E; [|reflexivity].
  apply re_match_open_startswith in E. congruence.
Qed.

Lemma plain_not_closing (line : string) :
  plain line -> String.eqb line closing = false.
Proof.
  unfold plain. intros H. apply String.eqb_neq. intros ->.
  discriminate H.
Qed.

(** On a line without newline the tail of the patterns always matches
    and captures the whole rest of the line. *)
Lemma dot_star_eol_no_nl (s : string) :
  no_nl s = true -> dot_star_eol s = Some s.
Proof.
  induction s as [|c s IH]; simpl; [reflexivity|].
  destruct (Ascii.eqb c nl); simpl; [discriminate|].
  intros H. rewrite (IH H). reflexivity.
Qed.

Lemma no_nl_app (s t : string) :
  no_nl (s ++ t)%string = no_nl s && no_nl t.
Proof.
  induction s as [|c s IH]; simpl; [reflexivity|].
  rewrite IH. apply andb_assoc.
Qed.

End FenceFacts.

(* ================================================================== *)
(** ** Facts about one iteration and about the loop *)
(* ================================================================== *)

Section LoopFacts.
Import PyStr Fence Scanner.

Lemma step_open (st : state) (i : nat) (line : string) :
  re_match_open line = true -> step st i line = (opened i line, []).
Proof. intros H. unfold step. rewrite H. reflexivity. Qed.

Lemma step_close (st : state) (i : nat) :
  in_block st = true ->
  step st i closing = (leave st, [current_block st]).
Proof. intros H. unfold step. rewrite closing_not_open, H. reflexivity. Qed.

Lemma step_outside (st : state) (i : nat) (line : string) :
  re_match_open line = false -> in_block st = false ->
  step st i line = (st, []).
Proof.
  intros H1 H2. unfold step. rewrite H1, H2.
  rewrite !andb_false_r. simpl. rewrite H2, andb_false_r. reflexivity.
Qed.

Lemma step_plain (st : state) (i : nat) (line : string) :
  in_block st = true -> plain line ->
  step st i line = (extend st [line], []).
Proof.
  intros H1 H2. unfold step.
  rewrite (plain_not_open _ H2), (plain_not_closing _ H2), H1.
  unfold plain in H2. simpl. rewrite H2. simpl.
  unfold extend. rewrite H1. reflexivity.
Qed.

Lemma step_malformed (st : state) (i : nat) (line : string) :
  in_block st = true -> startswith line "```" = true ->
  line <> closing -> re_match_open line = false ->
  step st i line = (leave (extend st [line]), []).
Proof.
  intros H1 H2 H3 H4. unfold step.
  apply String.eqb_neq in H3. rewrite H4, H3, H1, H2. simpl.
  reflexivity.
Qed.

Lemma loop_app (st : state) (i : nat) (xs ys : list string) :
  loop st i (xs ++ ys) =
  let (st1, out1) := loop st i xs in
  let (st2, out2) := loop st1 (i + length xs) ys in
  (st2, out1 ++ out2).
Proof.
  revert st i. induction xs as [|x xs IH]; intros st i; simpl.
  - rewrite Nat.add_0_r. destruct (loop st i ys). reflexivity.
  - destruct (step st i x) as [st1 o1]. rewrite IH.
    destruct (loop st1 (S i) xs) as [st2 o2].
    replace (i + S (length xs)) with (S i + length xs) by lia.
    destruct (loop st2 (S i + length xs) ys) as [st3 o3].
    now rewrite app_assoc.
Qed.

Lemma extend_extend (st : state) (xs ys : list string) :
  extend (extend st xs) ys = extend st (xs ++ ys).
Proof. unfold extend. simpl. now rewrite app_assoc. Qed.

Lemma extend_nil (st : state) : extend st [] = st.
Proof. destruct st. unfold extend. simpl. now rewrite app_nil_r. Qed.

(** Inside a block, lines that do not start with three backticks are
    accumulated and nothing is yielded. *)
Lemma loop_plain (st : state) (i : nat) (body : list string) :
  in_block st = true -> Forall plain body ->
  loop st i body = (extend st body, []).
Proof.
  intros Hin Hb. revert st i Hin.
  induction Hb as [|l ls Hl _ IH]; intros st i Hin; simpl.
  - now rewrite extend_nil.
  - rewrite (step_plain _ _ _ Hin Hl).
    rewrite IH by exact Hin. now rewrite extend_extend.
Qed.

(** Outside a block, lines that are no opening fence change nothing. *)
Lemma loop_gap (st : state) (i : nat) (gap : list string) :
  in_block st = false ->
  Forall (fun l => re_match_open l = false) gap ->
  loop st i gap = (st, []).
Proof.
  intros Hout Hg. revert i.
  induction Hg as [|l ls Hl _ IH]; intros i; simpl; [reflexivity|].
  rewrite (step_outside _ _ _ Hl Hout), IH. reflexivity.
Qed.

Lemma step_same_future (s t : state) (i : nat) (line : string) :
  same_future s t ->
  same_future (fst (step s i line)) (fst (step t i line))
  /\ snd (step s i line) = snd (step t i line).
Proof.
  intros [->|[Hs Ht]]; [split; [now left|reflexivity]|].
  destruct (re_match_open line) eqn:E.
  - rewrite !step_open by exact E. split; [now left|reflexivity].
  - rewrite !step_outside by assumption. split; [now right|reflexivity].
Qed.

Lemma loop_same_future (s t : state) (i : nat) (lines : list string) :
  same_future s t ->
  same_future (fst (loop s i lines)) (fst (loop t i lines))
  /\ snd (loop s i lines) = snd (loop t i lines).
Proof.
  revert s t i. induction lines as [|l ls IH]; intros s t i H; simpl.
  - split; [assumption|reflexivity].
  - destruct (step_same_future s t i l H) as [H1 H2].
    destruct (step s i l) as [s1 o1], (step t i l) as [t1 o1'].
    simpl in H1, H2. subst o1'.
    destruct (IH s1 t1 (S i) H1) as [H3 H4].
    destruct (loop s1 (S i) ls) as [s2 o2], (loop t1 (S i) ls) as [t2 o2'].
    simpl in *. subst o2'. split; [assumption|reflexivity].
Qed.

(** Once outside a block, the scan continues as a fresh scan would. *)
Lemma scan_from_outside (st : state) (i : nat) (lines : list string) :
  in_block st = false -> scan_from st i lines = scan_from init i lines.
Proof.
  intros H. unfold scan_from.
  destruct (loop_same_future st init i lines) as [H1 H2];
    [right; split; [assumption|reflexivity]|].
  destruct (loop st i lines) as [s o], (loop init i lines) as [s' o'].
  simpl in *. subst o'. f_equal.
  destruct H1 as [->|[Ha Hb]]; [reflexivity|].
  unfold at_eof. now rewrite Ha, Hb.
Qed.

Lemma scan_from_app (st : state) (i : nat) (xs ys : list string) :
  scan_from st i (xs ++ ys) =
  snd (loop st i xs) ++ scan_from (fst (loop st i xs)) (i + length xs) ys.
Proof.
  unfold scan_from. rewrite loop_app.
  destruct (loop st i xs) as [s1 o1]. simpl.
  destruct (loop s1 (i + length xs) ys) as [s2 o2].
  now rewrite app_assoc.
Qed.

End LoopFacts.

(* ================================================================== *)
(** ** The function [step] and the transition relation *)
(* ================================================================== *)

Section Transitions.
Import PyStr Fence Scanner.

(** The function [step] takes the transition the relation describes; in
    particular every state and every line have a transition. *)
Lemma step_trans (st : state) (i : nat) (line : string) :
  trans st i line (fst (step st i line)) (snd (step st i line)).
Proof.
  destruct (re_match_open line) eqn:Eo.
  - rewrite step_open by exact Eo. now constructor.
  - destruct (in_block st) eqn:Ei.
    + destruct (String.eqb line closing) eqn:Ec.
      * apply String.eqb_eq in Ec. subst line.
        rewrite step_close by exact Ei. now constructor.
      * apply String.eqb_neq in Ec.
        destruct (startswith line "```") eqn:Es.
        -- rewrite step_malformed by assumption. now constructor.
        -- rewrite step_plain by assumption. now constructor.
    + rewrite step_outside by assumption. now constructor.
Qed.

Lemma trans_functional (st : state) (i : nat) (line : string)
      (s1 s2 : state) (o1 o2 : list block) :
  trans st i line s1 o1 -> trans st i line s2 o2 -> s1 = s2 /\ o1 = o2.
Proof.
  intros H1 H2.
  destruct H1; destruct H2; subst; try (split; reflexivity); congruence.
Qed.

Lemma trans_step (st : state) (i : nat) (line : string)
      (st' : state) (out : list block) :
  trans st i line st' out -> step st i line = (st', out).
Proof.
  intros H. pose proof (step_trans st i line) as H'.
  destruct (trans_functional _ _ _ _ _ _ _ H H') as [-> ->].
  now destruct (step st i line).
Qed.

End Transitions.

(* ================================================================== *)
(** ** What the locals and the yielded tuples say about the document *)
(* ================================================================== *)

Section Spans.
Import PyStr Fence Scanner.

Lemma loop_snoc (st : state) (i : nat) (ls : list string) (l : string) :
  loop st i (ls ++ [l]) =
  (fst (step (fst (loop st i ls)) (i + length ls) l),
   snd (loop st i ls) ++ snd (step (fst (loop st i ls)) (i + length ls) l)).
Proof.
  rewrite loop_app. destruct (loop st i ls) as [s1 o1]. simpl.
  destruct (step s1 (i + length ls) l) as [s2 o2]. simpl.
  now rewrite app_nil_r.
Qed.

Lemma run_snoc (ls : list string) (l : string) :
  loop init 1 (ls ++ [l]) =
  (fst (step (fst (loop init 1 ls)) (S (length ls)) l),
   yielded ls ++ snd (step (fst (loop init 1 ls)) (S (length ls)) l)).
Proof. apply loop_snoc. Qed.

Lemma current_block_tracked (pre : list string) (opener : string)
      (body : list string) :
  current_block (extend (opened (S (length pre)) opener) body)
  = block_of pre opener body.
Proof. reflexivity. Qed.

Lemma loop_tracks (lines : list string) :
  tracks lines (fst (loop init 1 lines)).
Proof.
  induction lines as [|l ls IH] using rev_ind.
  - intros H. discriminate H.
  - rewrite run_snoc. simpl fst.
    pose proof (step_trans (fst (loop init 1 ls)) (S (length ls)) l) as Ht.
    set (st := fst (loop init 1 ls)) in *.
    destruct (step st (S (length ls)) l) as [st' out]. simpl in Ht |- *.
    destruct Ht as [Ho|Ho Hc Hi|Ho Hi|Ho Hi Hc Hp|Ho Hi Hc Hp]; intros Hin.
    + exists ls, l, []. repeat split; [assumption|constructor].
    + discriminate Hin.
    + congruence.
    + destruct (IH Hi) as (pre & opener & body & -> & Hop & Hb & Hst).
      exists pre, opener, (body ++ [l]). repeat split.
      * now rewrite <- app_assoc.
      * assumption.
      * apply Forall_app. split; [assumption|]. now constructor.
      * rewrite Hst. apply extend_extend.
    + discriminate Hin.
Qed.

Lemma closed_span_snoc (ls : list string) (l : string) (b : block) :
  closed_span ls b -> closed_span (ls ++ [l]) b.
Proof.
  intros (pre & opener & body & post & -> & Ho & Hb & ->).
  exists pre, opener, body, (post ++ [l]). repeat split; try assumption.
  rewrite <- !app_assoc. simpl. rewrite <- !app_assoc. reflexivity.
Qed.

Lemma yielded_closed (lines : list string) :
  Forall (closed_span lines) (yielded lines).
Proof.
  unfold yielded.
  induction lines as [|l ls IH] using rev_ind; [constructor|].
  rewrite run_snoc. simpl snd. apply Forall_app. split.
  - eapply Forall_impl; [|exact IH]. intros b. apply closed_span_snoc.
  - pose proof (step_trans (fst (loop init 1 ls)) (S (length ls)) l) as Ht.
    pose proof (loop_tracks ls) as Htr.
    set (st := fst (loop init 1 ls)) in *.
    destruct (step st (S (length ls)) l) as [st' out]. simpl in Ht |- *.
    destruct Ht as [Ho|Ho Hc Hi|Ho Hi|Ho Hi Hc Hp|Ho Hi Hc Hp];
      try constructor; [|constructor].
    destruct (Htr Hi) as (pre & opener & body & -> & Hop & Hb & Hst).
    exists pre, opener, body, []. repeat split; try assumption.
    + subst l. now rewrite <- app_assoc.
    + rewrite Hst. apply current_block_tracked.
Qed.

Lemma at_eof_open (lines : list string) :
  Forall (open_span lines) (at_eof (fst (loop init 1 lines))).
Proof.
  unfold at_eof. pose proof (loop_tracks lines) as Htr.
  destruct (in_block (fst (loop init 1 lines))) eqn:E; [|constructor].
  destruct (Htr E) as (pre & opener & body & -> & Hop & Hb & Hst).
  repeat constructor. exists pre, opener, body.
  repeat split; try assumption.
  rewrite Hst. apply current_block_tracked.
Qed.

Lemma scan_lines_yielded (lines : list string) :
  scan_lines lines = yielded lines ++ at_eof (fst (loop init 1 lines)).
Proof.
  unfold scan_lines, scan_from, yielded.
  now destruct (loop init 1 lines).
Qed.

(** Every tuple of a scan is a fenced region of the document. *)
Lemma scan_lines_spans (lines : list string) :
  Forall (fun b => closed_span lines b \/ open_span lines b)
         (scan_lines lines).
Proof.
  rewrite scan_lines_yielded. apply Forall_app. split.
  - eapply Forall_impl; [|apply yielded_closed]. intros; now left.
  - eapply Forall_impl; [|apply at_eof_open]. intros; now right.
Qed.

End Spans.

(* ================================================================== *)
(** ** Order of the yielded line numbers *)
(* ================================================================== *)

Section Order.
Import PyStr Fence Scanner.

Lemma sorted_snoc (xs : list nat) (y : nat) :
  StronglySorted lt xs -> Forall (fun x => x < y) xs ->
  StronglySorted lt (xs ++ [y]).
Proof.
  induction 1 as [|x xs Hs IH Hx]; intros Hy; simpl.
  - repeat constructor.
  - inversion Hy; subst. constructor; [now apply IH|].
    apply Forall_app. split; [assumption|now repeat constructor].
Qed.

Lemma Forall_le_lt (n m : nat) (out : list block) :
  n < m -> Forall (fun b => start_line b <= n) out ->
  Forall (fun b => start_line b < m) out.
Proof.
  intros H. apply Forall_impl. intros b Hb. lia.
Qed.

Lemma Forall_le_le (n m : nat) (out : list block) :
  n <= m -> Forall (fun b => start_line b <= n) out ->
  Forall (fun b => start_line b <= m) out.
Proof.
  intros H. apply Forall_impl. intros b Hb. lia.
Qed.

Lemma Forall_map_start (P : nat -> Prop) (out : list block) :
  Forall (fun b => P (start_line b)) out -> Forall P (map start_line out).
Proof. induction 1; simpl; constructor; assumption. Qed.

(** While the loop runs: the line numbers yielded so far increase, none
    exceeds the number of lines read, and all are below the start of the
    block that is open. *)
Lemma loop_order (lines : list string) :
  StronglySorted lt (map start_line (yielded lines))
  /\ Forall (fun b => start_line b <= length lines) (yielded lines)
  /\ (in_block (fst (loop init 1 lines)) = true ->
      block_start (fst (loop init 1 lines)) <= length lines
      /\ Forall (fun b => start_line b
                          < block_start (fst (loop init 1 lines)))
                (yielded lines)).
Proof.
  induction lines as [|l ls IH] using rev_ind.
  - repeat split; try constructor; discriminate.
  - destruct IH as (Hs & Hb & Hi).
    unfold yielded at 1 2 3. rewrite run_snoc. simpl fst. simpl snd.
    pose proof (step_trans (fst (loop init 1 ls)) (S (length ls)) l) as Ht.
    set (st := fst (loop init 1 ls)) in *.
    destruct (step st (S (length ls)) l) as [st' out]. simpl in Ht |- *.
    rewrite length_app. simpl length.
    destruct Ht as [Ho|Ho Hc Hin|Ho Hin|Ho Hin Hc Hp|Ho Hin Hc Hp];
      rewrite ?app_nil_r; simpl.
    + repeat split; [assumption|eapply Forall_le_le; [|eassumption]; lia
                     |lia|eapply Forall_le_lt; [|eassumption]; lia].
    + destruct (Hi Hin) as [Hle Hlt]. repeat split.
      * rewrite map_app. simpl. apply sorted_snoc; [assumption|].
        now apply Forall_map_start.
      * apply Forall_app. split.
        -- eapply Forall_le_le; [|eassumption]; lia.
        -- repeat constructor. unfold start_line, current_block. simpl. lia.
      * discriminate.
      * discriminate.
    + repeat split; [assumption|eapply Forall_le_le; [|eassumption]; lia
                     |congruence|congruence].
    + destruct (Hi Hin) as [Hle Hlt].
      repeat split; [assumption|eapply Forall_le_le; [|eassumption]; lia
                     |lia|assumption].
    + repeat split; [assumption|eapply Forall_le_le; [|eassumption]; lia
                     |discriminate|discriminate].
Qed.

(** The line numbers of a scan increase strictly. *)
Lemma scan_lines_sorted (lines : list string) :
  StronglySorted lt (map start_line (scan_lines lines)).
Proof.
  rewrite scan_lines_yielded.
  destruct (loop_order lines) as (Hs & _ & Hi).
  unfold at_eof. destruct (in_block (fst (loop init 1 lines))).
  - destruct (Hi eq_refl) as [_ Hlt].
    rewrite map_app. simpl. apply sorted_snoc; [assumption|].
    now apply Forall_map_start.
  - now rewrite app_nil_r.
Qed.

End Order.

(* ================================================================== *)
(** ** Attributes of an opening fence *)
(* ================================================================== *)

Section Attributes.
Import PyStr Fence Scanner.

Lemma tag_letter_not_comma (c : ascii) :
  Ascii.eqb c "R" || Ascii.eqb c "r" = true -> Ascii.eqb c "," = false.
Proof.
  intros H. apply orb_true_iff in H.
  destruct H as [H|H]; apply Ascii.eqb_eq in H; subst c; reflexivity.
Qed.

(** The shape of a line on which the head of the patterns matches. *)
Lemma match_tag_shape (line rest : string) :
  match_tag line = Some rest ->
  exists c, Ascii.eqb c "R" || Ascii.eqb c "r" = true
            /\ line = ("```" ++ String c ("ust" ++ rest))%string.
Proof.
  unfold match_tag.
  destruct (strip_prefix "```" line) as [[|c r]|] eqn:E1; try discriminate.
  destruct (Ascii.eqb c "R" || Ascii.eqb c "r") eqn:Ec; [|discriminate].
  intros E2. apply strip_prefix_app in E1, E2. subst. eauto.
Qed.

Lemma match_tag_build (c : ascii) (rest : string) :
  Ascii.eqb c "R" || Ascii.eqb c "r" = true ->
  match_tag ("```" ++ String c ("ust" ++ rest)) = Some rest.
Proof. intros H. unfold match_tag. simpl. now rewrite H. Qed.

Lemma no_nl_tagged (c : ascii) (rest : string) :
  no_nl ("```" ++ String c ("ust" ++ rest)) = true -> no_nl rest = true.
Proof.
  simpl. intros H. apply andb_true_iff in H. now destruct H.
Qed.

(** On a line without newline, [$] holds at the end only. *)
Lemma at_eol_no_nl (s : string) :
  no_nl s = true -> at_eol s = true -> s = EmptyString.
Proof.
  unfold at_eol. intros Hn H. apply orb_true_iff in H.
  destruct H as [H|H]; apply String.eqb_eq in H; subst s;
    [reflexivity|discriminate Hn].
Qed.

(** On a line of the document, the opening pattern holds exactly for the
    tag [rust] or [Rust] followed by nothing or by a comma. *)
Lemma re_match_open_iff (line : string) :
  no_nl line = true ->
  re_match_open line = true <->
  exists c, (c = "R"%char \/ c = "r"%char)
    /\ (line = ("```" ++ String c "ust")%string
        \/ exists t, line = ("```" ++ String c ("ust," ++ t))%string).
Proof.
  intros Hn. split.
  - unfold re_match_open.
    destruct (match_tag line) as [rest|] eqn:E; [|discriminate].
    destruct (match_tag_shape _ _ E) as (c & Hc & ->).
    intros H. exists c. split.
    + apply orb_true_iff in Hc.
      destruct Hc as [Hc|Hc]; apply Ascii.eqb_eq in Hc; auto.
    + destruct rest as [|d t]; [now left|].
      destruct (Ascii.eqb d ",") eqn:Ed.
      * apply Ascii.eqb_eq in Ed. subst d. right. now exists t.
      * apply no_nl_tagged in Hn.
        discriminate (at_eol_no_nl _ Hn H).
  - intros (c & Hc & [->|[t ->]]).
    + unfold re_match_open.
      change ("```" ++ String c "ust")%string
        with ("```" ++ String c ("ust" ++ ""))%string.
      rewrite (match_tag_build c EmptyString); [reflexivity|].
      destruct Hc as [->| ->]; reflexivity.
    + unfold re_match_open.
      change ("```" ++ String c ("ust," ++ t))%string
        with ("```" ++ String c ("ust" ++ String "," t))%string in Hn |- *.
      rewrite (match_tag_build c (String "," t));
        [|destruct Hc as [->| ->]; reflexivity].
      apply no_nl_tagged in Hn. simpl in Hn |- *.
      now rewrite dot_star_eol_no_nl.
Qed.

(** On a line of the document that opens a block, the attributes the
    code extracts are those of the specification's wording. *)
Lemma open_attrs_after_first_comma (line : string) :
  no_nl line = true -> re_match_open line = true ->
  open_attrs line = after_first_comma line.
Proof.
  intros Hn. unfold re_match_open, open_attrs, re_match_attrs.
  destruct (match_tag line) as [rest|] eqn:E; [|discriminate].
  destruct (match_tag_shape _ _ E) as (c & Hc & ->).
  apply no_nl_tagged in Hn.
  simpl after_first_comma. rewrite (tag_letter_not_comma _ Hc).
  destruct rest as [|d t]; [reflexivity|].
  simpl after_first_comma. destruct (Ascii.eqb d ",") eqn:Ed.
  - simpl in Hn. apply andb_true_iff in Hn. destruct Hn as [_ Hn].
    rewrite dot_star_eol_no_nl by exact Hn. reflexivity.
  - intros H. discriminate (at_eol_no_nl _ Hn H).
Qed.

End Attributes.

(* ================================================================== *)
(** ** Documents made of properly closed fences *)
(* ================================================================== *)

Section WellFormed.
Import PyStr Fence Scanner.

Lemma scan_from_cons (st : state) (i : nat) (l : string)
      (ls : list string) :
  scan_from st i (l :: ls) =
  snd (step st i l) ++ scan_from (fst (step st i l)) (S i) ls.
Proof.
  unfold scan_from. simpl. destruct (step st i l) as [s1 o1]. simpl.
  destruct (loop s1 (S i) ls) as [s2 o2]. now rewrite app_assoc.
Qed.

(** A closed fence met at line [i], whatever the locals: exactly its
    tuple is yielded, and the scan goes on as a fresh one after it. *)
Lemma scan_from_fence (st : state) (i : nat) (opener : string)
      (body post : list string) :
  re_match_open opener = true -> Forall plain body ->
  scan_from st i (opener :: body ++ closing :: post) =
  (i, open_attrs opener, join_nl body)
    :: scan_from init (S (S i + length body)) post.
Proof.
  intros Ho Hb.
  rewrite scan_from_cons, (step_open _ _ _ Ho). simpl.
  rewrite scan_from_app.
  rewrite (loop_plain (opened i opener) (S i) body eq_refl Hb). simpl.
  rewrite scan_from_cons, step_close by reflexivity. simpl.
  f_equal. now apply scan_from_outside.
Qed.

Lemma scan_from_gap (st : state) (i : nat) (gap rest : list string) :
  in_block st = false ->
  Forall (fun l => re_match_open l = false) gap ->
  scan_from st i (gap ++ rest) = scan_from st (i + length gap) rest.
Proof.
  intros Hs Hg. rewrite scan_from_app, (loop_gap _ _ _ Hs Hg). reflexivity.
Qed.

Lemma scan_document (fs : list fenced) (tail : list string) (off : nat) :
  Forall well_fenced fs ->
  Forall (fun l => re_match_open l = false) tail ->
  scan_from init (S off) (document fs tail) = blocks_of off fs.
Proof.
  intros Hfs Ht. revert off.
  induction Hfs as [|f fs (Hg & Ho & Hb) _ IH]; intros off; simpl.
  - unfold scan_from. now rewrite (loop_gap init (S off) tail eq_refl Ht).
  - rewrite (scan_from_gap init _ _ _ eq_refl Hg).
    rewrite (scan_from_fence _ _ _ _ _ Ho Hb).
    f_equal; [f_equal; f_equal; lia|].
    rewrite <- IH. f_equal. lia.
Qed.

Lemma blocks_of_length (off : nat) (fs : list fenced) :
  length (blocks_of off fs) = length fs.
Proof. revert off. induction fs; intros off; simpl; congruence. Qed.

(** The line number of each tuple is the position of its opening fence
    in the document, and its text is the body of that fence. *)
Lemma blocks_of_positions (pfx : list string) (fs : list fenced)
      (tail : list string) :
  Forall2 (fun b f =>
             nth_error (pfx ++ document fs tail) (start_line b - 1)
             = Some (f_open f)
             /\ block_attrs b = open_attrs (f_open f)
             /\ block_text b = join_nl (f_body f))
          (blocks_of (length pfx) fs) fs.
Proof.
  revert pfx. induction fs as [|f fs IH]; intros pfx; simpl.
  - constructor.
  - constructor.
    + repeat split. unfold start_line. simpl.
      replace (length pfx + length (f_gap f) + 1 - 1)
        with (length (pfx ++ f_gap f)) by (rewrite length_app; lia).
      rewrite app_assoc, nth_error_app2 by lia.
      now rewrite Nat.sub_diag.
    + specialize (IH (pfx ++ f_gap f ++ f_open f :: f_body f ++ [closing])).
      replace (length (pfx ++ f_gap f ++ f_open f :: f_body f ++ [closing]))
        with (length pfx + length (f_gap f) + length (f_body f) + 2) in IH
        by (rewrite !length_app; simpl; rewrite length_app; simpl; lia).
      replace (pfx ++ f_gap f ++ f_open f :: f_body f
                   ++ closing :: document fs tail)
        with ((pfx ++ f_gap f ++ f_open f :: f_body f ++ [closing])
                ++ document fs tail); [exact IH|].
      rewrite <- !app_assoc. simpl. rewrite <- !app_assoc. reflexivity.
Qed.

End WellFormed.

(* ================================================================== *)
(** ** The scenarios of the specification, run on the embedding *)
(* ================================================================== *)

Section Scenarios.
Import PyStr Fence Scanner.

Example scenario_closed_block :
  extract_rust_blocks
    ("```" ++ lf ++ "intro" ++ lf ++ "```rust" ++ lf ++ "fn main() {}" ++ lf
           ++ "```" ++ lf ++ "outro" ++ lf ++ "```")
  = [(3, "", "fn main() {}")].
Proof. reflexivity. Qed.

Example scenario_attributes :
  extract_rust_blocks ("```rust,no_run" ++ lf ++ "let x = 1;" ++ lf ++ "```")
  = [(1, "no_run", "let x = 1;")].
Proof. reflexivity. Qed.

Example scenario_unclosed :
  extract_rust_blocks ("```rust" ++ lf ++ "foo()") = [(1, "", "foo()")].
Proof. reflexivity. Qed.

Example scenario_nested_other_language :
  extract_rust_blocks
    ("```rust" ++ lf ++ "a" ++ lf ++ "```python" ++ lf ++ "b" ++ lf ++ "```")
  = [].
Proof. reflexivity. Qed.

Example scenario_nested_rust :
  extract_rust_blocks
    ("```rust" ++ lf ++ "a" ++ lf ++ "```rust" ++ lf ++ "b" ++ lf ++ "```")
  = [(3, "", "b")].
Proof. reflexivity. Qed.

Example scenario_cli_output :
  Cli.stdout (Cli.main ["extract-rust-blocks.py"; "doc.md"]
                (fun _ => Cli.ReadOk ("```rust,ignore" ++ lf ++ "x" ++ lf ++ "```"))
                Cli.reliable)
  = ("1" ++ Cli.tab ++ "ignore" ++ Cli.tab ++ "x" ++ Cli.nul)%string.
Proof. reflexivity. Qed.

End Scenarios.

(* ================================================================== *)
(** ** The properties of the specification *)
(* ================================================================== *)

Section Claims.
Import PyStr Fence Scanner.

(** C1, as amended.  Inside a block, a line that starts with three
    backticks, is not exactly the closing fence and does not match the
    opening pattern of the target language (for instance a fence of
    another language) is appended to the accumulated lines and clears
    [in_block] without yielding anything; the rest of the document is
    then scanned as by a fresh scan starting at the next line, so the
    block in progress is never yielded and nothing is raised. *)
Theorem malformed_fence_drops_block
        (st : state) (i : nat) (line : string) (post : list string) :
  in_block st = true ->
  startswith line "```" = true ->
  line <> closing ->
  re_match_open line = false ->
  step st i line = (leave (extend st [line]), [])
  /\ block_content (fst (step st i line)) = block_content st ++ [line]
  /\ in_block (fst (step st i line)) = false
  /\ scan_from st i (line :: post) = scan_from init (S i) post.
Proof.
  intros Hi Hs Hc Ho.
  pose proof (step_malformed st i line Hi Hs Hc Ho) as E.
  rewrite scan_from_cons, E. simpl.
  repeat split. now apply scan_from_outside.
Qed.

Lemma malformed_fence_drops_block_witness :
  step (extend (opened 1 "```rust") ["a"]) 3 "```python"
  = (leave (extend (extend (opened 1 "```rust") ["a"]) ["```python"]), [])
  /\ scan_from (extend (opened 1 "```rust") ["a"]) 3
               ["```python"; "b"; "```"]
     = scan_from init 4 ["b"; "```"].
Proof.
  destruct (malformed_fence_drops_block
              (extend (opened 1 "```rust") ["a"]) 3 "```python"
              ["b"; "```"]) as (H1 & _ & _ & H4).
  - reflexivity.
  - reflexivity.
  - discriminate.
  - reflexivity.
  - split; [exact H1|exact H4].
Defined.

(** C1, as stated, fails: inside a block, the line [```rust] starts with
    three backticks and is not the closing fence, yet it is not appended
    and the scanner stays inside a block (a new one, opened at that
    line). *)
Lemma nested_rust_fence_reopens :
  ~ (forall (st : state) (i : nat) (line : string),
        in_block st = true ->
        startswith line "```" = true ->
        line <> closing ->
        step st i line = (leave (extend st [line]), [])).
Proof.
  intros H.
  specialize (H (extend (opened 1 "```rust") ["a"]) 3 "```rust"
                eq_refl eq_refl).
  discriminate H. discriminate.
Qed.

(** C2, at the inputs where the code departs from it: the tags [RUST]
    and [rUst] do not open a block, so a fenced region tagged [RUST]
    yields nothing; [rust] and [Rust], alone or followed by a comma, do
    open one, and [rustacean] and [javascript] do not. *)
Theorem uppercase_tag_not_opened :
  re_match_open "```RUST" = false
  /\ re_match_open "```rUst" = false
  /\ extract_rust_blocks ("```RUST" ++ lf ++ "x" ++ lf ++ "```") = []
  /\ re_match_open "```rust" = true
  /\ re_match_open "```Rust" = true
  /\ re_match_open "```Rust,ignore" = true
  /\ re_match_open "```rustacean" = false
  /\ re_match_open "```javascript" = false.
Proof. repeat split. Qed.

(** C3.  A document made of [N] properly closed fences of the target
    language, without nesting, yields exactly [N] tuples, in the order of
    the fences; the line number of each is the position (from 1) of its
    opening fence, and its text is the lines strictly between the opening
    and the closing fence joined with newlines. *)
Theorem closed_fences_yield_their_blocks
        (content : string) (fs : list fenced) (tail : list string) :
  Forall well_fenced fs ->
  Forall (fun l => re_match_open l = false) tail ->
  split_nl content = document fs tail ->
  extract_rust_blocks content = blocks_of 0 fs
  /\ length (extract_rust_blocks content) = length fs
  /\ Forall2 (fun b f =>
                nth_error (split_nl content) (start_line b - 1)
                = Some (f_open f)
                /\ block_attrs b = open_attrs (f_open f)
                /\ block_text b = join_nl (f_body f))
             (extract_rust_blocks content) fs.
Proof.
  intros Hfs Ht Hdoc.
  assert (E : extract_rust_blocks content = blocks_of 0 fs).
  { unfold extract_rust_blocks, scan_lines. rewrite Hdoc.
    now apply scan_document. }
  rewrite E, Hdoc. repeat split.
  - apply blocks_of_length.
  - apply (blocks_of_positions [] fs tail).
Qed.

Lemma closed_fences_yield_their_blocks_witness :
  extract_rust_blocks
    ("intro" ++ lf ++ "```rust" ++ lf ++ "fn main() {}" ++ lf ++ "```"
             ++ lf ++ "```Rust,no_run" ++ lf ++ "let x = 1;" ++ lf
             ++ "x" ++ lf ++ "```" ++ lf ++ "outro")
  = [(2, "", "fn main() {}"); (5, "no_run", ("let x = 1;" ++ lf ++ "x")%string)].
Proof.
  refine (proj1 (closed_fences_yield_their_blocks _
            [ {| f_gap := ["intro"]; f_open := "```rust";
                 f_body := ["fn main() {}"] |};
              {| f_gap := []; f_open := "```Rust,no_run";
                 f_body := ["let x = 1;"; "x"] |} ]
            ["outro"] _ _ _)).
  - repeat constructor.
  - repeat constructor.
  - reflexivity.
Defined.

Lemma loop_unclosed (pre : list string) (opener : string)
      (body : list string) :
  re_match_open opener = true -> Forall plain body ->
  loop init 1 (pre ++ opener :: body)
  = (extend (opened (S (length pre)) opener) body, yielded pre).
Proof.
  intros Ho Hb. unfold yielded. rewrite loop_app.
  destruct (loop init 1 pre) as [s1 o1]. simpl.
  rewrite (step_open _ _ _ Ho).
  rewrite (loop_plain (opened (S (length pre)) opener) _ body eq_refl Hb).
  simpl. now rewrite app_nil_r.
Qed.

(** C4.  A document that ends inside a block is some lines, an opening
    fence, and lines none of which starts with three backticks.  For
    every such document the scanner is inside a block at the end, and
    after what was yielded before the opening fence it yields one more
    tuple: the line number of that fence, the text after the first comma
    of that fence (empty without a comma), and all the lines after the
    fence joined with newlines.  Conversely every document at whose end
    the scanner is inside a block has that shape. *)
Theorem unclosed_block_is_yielded :
  (forall (content : string) (pre : list string) (opener : string)
          (body : list string),
      split_nl content = pre ++ opener :: body ->
      re_match_open opener = true ->
      Forall plain body ->
      in_block (final_state content) = true
      /\ extract_rust_blocks content =
         yielded pre
           ++ [(S (length pre), after_first_comma opener,
                String.concat (String "010" EmptyString) body)])
  /\ (forall content : string,
         in_block (final_state content) = true ->
         exists pre opener body,
           split_nl content = pre ++ opener :: body
           /\ re_match_open opener = true
           /\ Forall plain body).
Proof.
  split.
  - intros content pre opener body Hl Ho Hb.
    pose proof (split_nl_no_nl content) as Hn. rewrite Hl in Hn.
    apply Forall_app in Hn. destruct Hn as [_ Hn].
    inversion Hn as [|? ? Hno _]; subst.
    unfold final_state, extract_rust_blocks, scan_lines, scan_from.
    rewrite Hl, (loop_unclosed pre opener body Ho Hb). simpl fst.
    split; [reflexivity|].
    unfold at_eof. simpl in_block. rewrite current_block_tracked.
    unfold block_of. rewrite (open_attrs_after_first_comma _ Hno Ho).
    reflexivity.
  - unfold final_state. intros content Hin.
    destruct (loop_tracks (split_nl content) Hin)
      as (pre & opener & body & Hl & Ho & Hb & _).
    exists pre, opener, body. auto.
Qed.

Lemma unclosed_block_is_yielded_witness :
  extract_rust_blocks
    ("intro" ++ lf ++ "```rust,ignore" ++ lf ++ "foo()" ++ lf ++ "bar")
  = [(2, "ignore", ("foo()" ++ String "010" "bar")%string)].
Proof.
  refine (proj2 (proj1 unclosed_block_is_yielded
                   ("intro" ++ lf ++ "```rust,ignore" ++ lf ++ "foo()"
                            ++ lf ++ "bar")%string
                   ["intro"] "```rust,ignore" ["foo()"; "bar"] _ _ _)).
  - reflexivity.
  - reflexivity.
  - repeat constructor.
Defined.

(** C5.  The attributes of every yielded tuple are the substring that
    follows the first comma of its opening fence line, and the empty
    string when that line has no comma; [```rust,ignore] gives [ignore]
    and [```rust] gives the empty string. *)
Theorem attributes_follow_first_comma :
  (forall content : string,
      Forall (fun b =>
                exists opener,
                  nth_error (split_nl content) (start_line b - 1)
                  = Some opener
                  /\ re_match_open opener = true
                  /\ block_attrs b = after_first_comma opener)
             (extract_rust_blocks content))
  /\ extract_rust_blocks ("```rust,ignore" ++ lf ++ "```")
     = [(1, "ignore", "")]
  /\ extract_rust_blocks ("```rust" ++ lf ++ "```") = [(1, "", "")].
Proof.
  split; [|split; reflexivity].
  intros content. unfold extract_rust_blocks.
  pose proof (split_nl_no_nl content) as Hn.
  eapply Forall_impl; [|apply scan_lines_spans].
  intros b Hb.
  assert (H : exists pre opener body rest,
             split_nl content = pre ++ opener :: rest
             /\ re_match_open opener = true
             /\ b = block_of pre opener body).
  { destruct Hb as [(pre & o & body & post & Hl & Ho & _ & ->)
                   |(pre & o & body & Hl & Ho & _ & ->)].
    - exists pre, o, body, (body ++ closing :: post). auto.
    - exists pre, o, body, body. auto. }
  destruct H as (pre & o & body & rest & Hl & Ho & ->).
  exists o. rewrite Hl in Hn |- *. repeat split.
  - unfold start_line, block_of. simpl. rewrite Nat.sub_0_r.
    rewrite nth_error_app2 by lia. now rewrite Nat.sub_diag.
  - assumption.
  - apply Forall_app in Hn. destruct Hn as [_ Hn]. inversion Hn; subst.
    unfold block_attrs, block_of. simpl.
    now apply open_attrs_after_first_comma.
Qed.

(** C6, at the input where the code departs from it: when reading the
    file raises [UnicodeDecodeError], neither [except] clause of [main]
    applies, so the script writes no diagnostic of its own and the
    exception leaves [main] uncaught; the read failures that are
    [IOError]s end in [sys.exit(1)] after a one-line diagnostic. *)
Theorem decode_error_is_not_caught
        (prog path msg : string) (env : Cli.stdout_env) :
  Cli.main [prog; path] (fun _ => Cli.Raises (Cli.UnicodeDecodeError msg)) env
  = {| Cli.stdout := EmptyString; Cli.stderr := EmptyString;
       Cli.ending := Cli.Uncaught (Cli.UnicodeDecodeError msg) |}
  /\ Cli.main [prog; path] (fun _ => Cli.Raises (Cli.OSError msg)) env
     = {| Cli.stdout := EmptyString;
          Cli.stderr := "Error reading file: " ++ msg ++ lf;
          Cli.ending := Cli.SysExit 1 |}
  /\ Cli.main [prog; path] (fun _ => Cli.Raises (Cli.FileNotFoundError msg))
              env
     = {| Cli.stdout := EmptyString;
          Cli.stderr := "Error: File not found: " ++ path ++ lf;
          Cli.ending := Cli.SysExit 1 |}.
Proof. repeat split. Qed.

Lemma skipn_nth_error (lines : list string) (k : nat) (line : string) :
  nth_error lines k = Some line -> skipn k lines = line :: skipn (S k) lines.
Proof.
  revert k. induction lines as [|l ls IH]; intros [|k]; simpl;
    try discriminate.
  - now intros [= ->].
  - intros H. now rewrite (IH k H).
Qed.

Lemma step_py_ok (st : state) (i : nat) (line : string) :
  Generator.step_py st i line = Generator.Ok (step st i line).
Proof.
  unfold Generator.step_py, step, open_attrs.
  destruct (re_match_open line).
  - now destruct (re_match_attrs line).
  - now destruct (String.eqb line closing && in_block st).
Qed.

Lemma run_from (fuel : nat) (lines : list string) (f : Generator.frame) :
  Generator.consumed f <= length lines ->
  Generator.run fuel lines f =
  if Nat.leb fuel (length lines - Generator.consumed f) then None
  else Some (Generator.Finished
               (Generator.yields f
                  ++ scan_from (Generator.locals f)
                               (S (Generator.consumed f))
                               (skipn (Generator.consumed f) lines))).
Proof.
  revert f. induction fuel as [|fuel IH]; intros [st k ys] Hk; simpl in *.
  - reflexivity.
  - unfold Generator.turn. simpl.
    destruct (nth_error lines k) as [line|] eqn:E.
    + assert (Hlt : k < length lines)
        by (apply nth_error_Some; congruence).
      rewrite step_py_ok, (skipn_nth_error _ _ _ E), scan_from_cons.
      destruct (step st (S k) line) as [st' out]. simpl.
      rewrite IH by (simpl; lia). simpl.
      destruct (length lines - k) as [|d] eqn:Ed; [lia|].
      replace (length lines - S k) with d by lia.
      destruct (Nat.leb fuel d); [reflexivity|]. now rewrite app_assoc.
    + apply nth_error_None in E.
      replace (length lines - k) with 0 by lia.
      rewrite skipn_all2 by exact E. reflexivity.
Qed.

(** C7.  The scan is total and raises nothing.  No turn of the loop body
    raises, on any locals and any line: [group(1)] is only called on a
    match.  On every document the generator finishes, without an
    exception, after exactly one turn per line and the turn that finds
    the iterator exhausted - it is still running with fewer turns - and
    what it has yielded is what [extract_rust_blocks] returns. *)
Theorem generator_runs_to_completion :
  (forall (st : state) (i : nat) (line : string),
      Generator.step_py st i line = Generator.Ok (step st i line))
  /\ (forall (content : string) (fuel : nat),
         Generator.call fuel content =
         if Nat.leb fuel (length (split_nl content)) then None
         else Some (Generator.Finished (extract_rust_blocks content))).
Proof.
  split; [exact step_py_ok|].
  intros content fuel. unfold Generator.call.
  rewrite run_from by (simpl; lia). simpl.
  now rewrite Nat.sub_0_r.
Qed.



(** C10.  In every scan the line numbers of the yielded tuples increase
    strictly, and every tuple is determined by one opening fence and the
    lines that follow it: its line number is the position of that fence,
    its attributes are those of that fence, and its text is the lines
    from the one after that fence up to the first line that starts with
    three backticks (a closing fence) or up to the end of the document;
    nothing of a block that was dropped is in it. *)
Theorem yielded_blocks_increase_and_are_fresh (content : string) :
  StronglySorted lt (map start_line (extract_rust_blocks content))
  /\ Forall (fun b => closed_span (split_nl content) b
                      \/ open_span (split_nl content) b)
            (extract_rust_blocks content).
Proof.
  split; [apply scan_lines_sorted|apply scan_lines_spans].
Qed.

End Claims.

(* ================================================================== *)
(** ** Lines and text: [split] and [join] *)
(* ================================================================== *)

Section LinesAndText.
Import PyStr Fence Scanner.

Lemma str_app_nil_r (s : string) : (s ++ "")%string = s.
Proof. induction s as [|c s IH]; simpl; [reflexivity|now rewrite IH]. Qed.

Lemma str_app_assoc (a b c : string) :
  ((a ++ b) ++ c)%string = (a ++ (b ++ c))%string.
Proof. induction a as [|x a IH]; simpl; [reflexivity|now rewrite IH]. Qed.

Lemma join_nl_cons (x : string) (xs : list string) :
  xs <> [] -> join_nl (x :: xs) = (x ++ lf ++ join_nl xs)%string.
Proof. destruct xs; [contradiction|reflexivity]. Qed.

Lemma join_nl_app (xs ys : list string) :
  xs <> [] -> ys <> [] ->
  join_nl (xs ++ ys) = (join_nl xs ++ lf ++ join_nl ys)%string.
Proof.
  intros Hx Hy. induction xs as [|x xs IH]; [contradiction|].
  destruct xs as [|x' xs].
  - simpl app. now rewrite join_nl_cons.
  - change ((x :: x' :: xs) ++ ys) with (x :: ((x' :: xs) ++ ys)).
    rewrite join_nl_cons by discriminate.
    rewrite IH by discriminate.
    rewrite (join_nl_cons x (x' :: xs)) by discriminate.
    now rewrite !str_app_assoc.
Qed.

(** Joining the lines of a text gives the text back. *)
Lemma join_split (s : string) : join_nl (split_nl s) = s.
Proof.
  induction s as [|c s IH]; [reflexivity|]. simpl.
  destruct (Ascii.eqb c nl) eqn:E.
  - apply Ascii.eqb_eq in E. subst c.
    rewrite join_nl_cons by apply split_nl_nonempty. now rewrite IH.
  - pose proof (split_nl_nonempty s) as Hne.
    destruct (split_nl s) as [|l ls]; [contradiction|].
    rewrite <- IH. now destruct ls.
Qed.

Lemma split_nl_line (l : string) : no_nl l = true -> split_nl l = [l].
Proof.
  induction l as [|c l IH]; simpl; [reflexivity|].
  destruct (Ascii.eqb c nl); simpl; [discriminate|].
  intros H. now rewrite (IH H).
Qed.

Lemma split_nl_app_lf (a b : string) :
  split_nl (a ++ lf ++ b) = split_nl a ++ split_nl b.
Proof.
  change (lf ++ b)%string with (String nl b).
  induction a as [|c a IH]; [reflexivity|]. simpl. rewrite IH.
  destruct (Ascii.eqb c nl); [reflexivity|].
  pose proof (split_nl_nonempty a) as Hne.
  now destruct (split_nl a).
Qed.

(** Splitting the join of newline-free lines gives the lines back. *)
Lemma split_join (ls : list string) :
  Forall (fun l => no_nl l = true) ls -> ls <> [] ->
  split_nl (join_nl ls) = ls.
Proof.
  induction 1 as [|l ls Hl Hls IH]; intros Hne; [contradiction|].
  destruct ls as [|l' ls].
  - now apply split_nl_line.
  - rewrite join_nl_cons by discriminate.
    rewrite split_nl_app_lf, (split_nl_line _ Hl), IH by discriminate.
    reflexivity.
Qed.

End LinesAndText.

(* ================================================================== *)
(** ** Further properties of the scanner *)
(* ================================================================== *)

Section ScannerProperties.
Import PyStr Fence Scanner.

Lemma scan_from_count (lines : list string) (st : state) (i : nat) :
  length (scan_from st i lines)
  <= (if in_block st then 1 else 0) + length (filter re_match_open lines).
Proof.
  revert st i. induction lines as [|l ls IH]; intros st i.
  - unfold scan_from, at_eof. simpl. destruct (in_block st); simpl; lia.
  - rewrite scan_from_cons, length_app. simpl filter.
    pose proof (step_trans st i l) as Ht.
    destruct (step st i l) as [st' out]. simpl in Ht |- *.
    specialize (IH st' (S i)).
    destruct Ht as [Ho|Ho Hc Hin|Ho Hin|Ho Hin Hc Hp|Ho Hin Hc Hp];
      rewrite Ho; simpl in IH |- *; rewrite ?Hin in *; simpl in *; lia.
Qed.

Lemma span_body (lines : list string) (b : block) :
  closed_span lines b \/ open_span lines b ->
  exists pre opener body rest,
    lines = pre ++ opener :: body ++ rest
    /\ Forall plain body
    /\ block_text b = join_nl body.
Proof.
  intros [(pre & o & body & post & Hl & _ & Hb & ->)
         |(pre & o & body & Hl & _ & Hb & ->)].
  - exists pre, o, body, (closing :: post). auto.
  - exists pre, o, body, []. rewrite app_nil_r. auto.
Qed.

(** The text of a fenced region of newline-free lines, cut into lines
    again, has no line that starts with three backticks. *)
Lemma block_text_plain (lines : list string) (b : block) :
  Forall (fun l => no_nl l = true) lines ->
  closed_span lines b \/ open_span lines b ->
  Forall plain (split_nl (block_text b)).
Proof.
  intros Hn Hs.
  destruct (span_body _ _ Hs) as (pre & o & body & rest & -> & Hb & ->).
  apply Forall_app in Hn. destruct Hn as [_ Hn].
  inversion Hn as [|? ? _ Hn']; subst.
  apply Forall_app in Hn'. destruct Hn' as [Hn' _].
  destruct body as [|l body]; [repeat constructor|].
  rewrite split_join; [assumption|assumption|discriminate].
Qed.

Lemma scan_lines_no_open (lines : list string) :
  Forall (fun l => re_match_open l = false) lines -> scan_lines lines = [].
Proof.
  intros H. unfold scan_lines, scan_from.
  now rewrite (loop_gap init 1 lines eq_refl H).
Qed.

Lemma text_within (xs body rest : list string) :
  xs <> [] ->
  exists before after,
    join_nl (xs ++ body ++ rest) = (before ++ join_nl body ++ after)%string.
Proof.
  intros Hx. destruct body as [|l body].
  - exists (join_nl (xs ++ rest)), EmptyString. simpl.
    now rewrite str_app_nil_r.
  - rewrite (join_nl_app xs) by (assumption || discriminate).
    destruct rest as [|r rest].
    + exists (join_nl xs ++ lf)%string, EmptyString.
      now rewrite app_nil_r, str_app_nil_r, str_app_assoc.
    + rewrite (join_nl_app (l :: body)) by discriminate.
      exists (join_nl xs ++ lf)%string, (lf ++ join_nl (r :: rest))%string.
      now rewrite !str_app_assoc.
Qed.

Lemma step_shift (k : nat) (st : state) (i : nat) (line : string) :
  step (shift_state k st) (k + i) line =
  (shift_state k (fst (step st i line)),
   map (shift k) (snd (step st i line))).
Proof.
  destruct st as [inb start content attrs].
  unfold step, shift_state. simpl.
  destruct (re_match_open line); [reflexivity|].
  destruct (String.eqb line closing), inb, (startswith line "```");
    reflexivity.
Qed.

Lemma loop_shift (k : nat) (lines : list string) (st : state) (i : nat) :
  loop (shift_state k st) (k + i) lines =
  (shift_state k (fst (loop st i lines)),
   map (shift k) (snd (loop st i lines))).
Proof.
  revert st i. induction lines as [|l ls IH]; intros st i; simpl.
  - reflexivity.
  - rewrite step_shift. destruct (step st i l) as [s1 o1]. simpl.
    replace (S (k + i)) with (k + S i) by lia. rewrite IH.
    destruct (loop s1 (S i) ls) as [s2 o2]. simpl.
    now rewrite map_app.
Qed.

(** A fresh scan that starts [k] lines further down yields the same
    tuples with their line numbers moved by [k]. *)
Lemma scan_from_shift (k i : nat) (lines : list string) :
  scan_from init (k + i) lines = map (shift k) (scan_from init i lines).
Proof.
  rewrite <- (scan_from_outside (shift_state k init)) by reflexivity.
  unfold scan_from. rewrite loop_shift.
  destruct (loop init i lines) as [s o]. simpl.
  rewrite map_app. f_equal.
  unfold at_eof, shift_state. simpl. now destruct (in_block s).
Qed.

End ScannerProperties.

(* ================================================================== *)
(** ** The records [main] writes *)
(* ================================================================== *)

Section OutputFacts.
Import PyStr Fence Scanner.

Lemma records_cons (b : block) (bs : list block) :
  records (b :: bs) = (Cli.record_of b ++ records bs)%string.
Proof.
  unfold records. simpl. destruct (map Cli.record_of bs).
  - now rewrite str_app_nil_r.
  - reflexivity.
Qed.

(** A record followed by more output, field by field. *)
Lemma record_stream (b : block) (more : string) :
  (Cli.record_of b ++ more)%string =
  (str_of_int (start_line b)
     ++ String "009" (block_attrs b
     ++ String "009" (block_text b ++ String "000" more)))%string.
Proof.
  unfold Cli.record_of, Cli.tab, Cli.nul.
  rewrite !str_app_assoc. simpl. reflexivity.
Qed.

(** A text is cut at the first occurrence of a delimiter in one way. *)
Lemma cut_unique (c : ascii) (x1 x2 y1 y2 : string) :
  occurs c x1 = false -> occurs c x2 = false ->
  (x1 ++ String c y1)%string = (x2 ++ String c y2)%string ->
  x1 = x2 /\ y1 = y2.
Proof.
  revert x2. induction x1 as [|a x1 IH]; intros [|b x2]; simpl.
  - intros _ _ [= ->]. now split.
  - intros _ H [= <- _]. now rewrite Ascii.eqb_refl in H.
  - intros H _ [= -> _]. now rewrite Ascii.eqb_refl in H.
  - intros H1 H2 [= <- E].
    apply orb_false_iff in H1, H2.
    destruct (IH x2 (proj2 H1) (proj2 H2) E) as [-> ->]. now split.
Qed.

Lemma digits_no_tab (d : Decimal.uint) :
  occurs "009" (DecimalString.NilEmpty.string_of_uint d) = false.
Proof. induction d; simpl; auto. Qed.

Lemma str_of_int_no_tab (n : nat) : occurs "009" (str_of_int n) = false.
Proof.
  unfold str_of_int, DecimalString.NilZero.string_of_uint.
  destruct (Nat.to_uint n); try apply digits_no_tab. reflexivity.
Qed.

Lemma str_of_int_inj (n m : nat) : str_of_int n = str_of_int m -> n = m.
Proof.
  unfold str_of_int. intros H.
  assert (R : forall d,
             DecimalString.NilZero.uint_of_string
               (DecimalString.NilZero.string_of_uint d)
             = Some (match d with Decimal.Nil => Decimal.zero | _ => d end)).
  { intros d. destruct d; try (apply DecimalString.NilZero.usu; discriminate).
    reflexivity. }
  apply (f_equal DecimalString.NilZero.uint_of_string) in H.
  rewrite !R in H. injection H as H.
  rewrite <- (DecimalNat.Unsigned.of_to n), <- (DecimalNat.Unsigned.of_to m).
  destruct (Nat.to_uint n), (Nat.to_uint m);
    try discriminate H; try reflexivity;
    injection H as E; subst; reflexivity.
Qed.

Lemma record_not_empty (b : block) (more : string) :
  (Cli.record_of b ++ more)%string <> EmptyString.
Proof.
  rewrite record_stream. destruct (str_of_int (start_line b)); discriminate.
Qed.

(** On a standard output that never fails the loop writes every record. *)
Lemma write_all_reliable (k : nat) (recs : list string) :
  Cli.write_all Cli.reliable k recs
  = (String.concat EmptyString recs, None).
Proof.
  revert k. induction recs as [|r rest IH]; intros k; simpl.
  - reflexivity.
  - rewrite IH. destruct rest; [now rewrite str_app_nil_r|reflexivity].
Qed.

(** When no write raises, the loop has written every record. *)
Lemma write_all_complete (env : Cli.stdout_env) (k : nat)
      (recs : list string) :
  snd (Cli.write_all env k recs) = None ->
  fst (Cli.write_all env k recs) = String.concat EmptyString recs.
Proof.
  revert k. induction recs as [|r rest IH]; intros k; simpl.
  - reflexivity.
  - destruct (Cli.write_raises env k); [discriminate|].
    specialize (IH (S k)).
    destruct (Cli.write_all env (S k) rest) as [w f]. simpl in *.
    intros Hf. rewrite (IH Hf).
    destruct rest; [now rewrite str_app_nil_r|reflexivity].
Qed.

Lemma records_empty (bs : list block) :
  records bs = EmptyString <-> bs = [].
Proof.
  split; [|now intros ->].
  destruct bs as [|b bs]; [reflexivity|].
  rewrite records_cons. intros H. now apply record_not_empty in H.
Qed.

End OutputFacts.

(* ================================================================== *)
(** ** Further properties of the script *)
(* ================================================================== *)

Section Further.
Import PyStr Fence Scanner.

(** X1.  A scan yields at most as many tuples as the document has lines
    that match the opening pattern: every tuple needs an opening fence of
    its own. *)
Theorem blocks_bounded_by_opening_fences (content : string) :
  length (extract_rust_blocks content)
  <= length (filter re_match_open (split_nl content)).
Proof.
  apply (scan_from_count (split_nl content) init 1).
Qed.

(** X2.  On the lines of a document, the opening pattern accepts exactly
    the lines [```rust] and [```Rust] and these two followed by a comma
    and any text; a tag followed by anything else (a space, more letters)
    does not open a block. *)
Theorem opening_lines_characterised (content : string) :
  Forall (fun line =>
            re_match_open line = true <->
            (line = "```rust" \/ line = "```Rust"
             \/ (exists t, line = ("```rust," ++ t)%string)
             \/ (exists t, line = ("```Rust," ++ t)%string)))
         (split_nl content).
Proof.
  eapply Forall_impl; [|apply split_nl_no_nl].
  intros line Hn. cbv beta in Hn. rewrite (re_match_open_iff line Hn).
  split.
  - intros (c & [->| ->] & [->|[t ->]]).
    + right. now left.
    + right. right. right. now exists t.
    + now left.
    + right. right. left. now exists t.
  - intros [->|[->|[[t ->]|[t ->]]]].
    + exists "r"%char. split; [now right|now left].
    + exists "R"%char. split; [now left|now left].
    + exists "r"%char. split; [now right|right; now exists t].
    + exists "R"%char. split; [now left|right; now exists t].
Qed.

(** X3.  The text of every yielded tuple, cut into lines, has no line that
    starts with three backticks: neither an opening fence, nor a closing
    fence, nor a fence of another language is ever part of the content. *)
Theorem extracted_text_has_no_fence_line (content : string) :
  Forall (fun b => Forall plain (split_nl (block_text b)))
         (extract_rust_blocks content).
Proof.
  eapply Forall_impl; [|apply scan_lines_spans].
  intros b. apply block_text_plain, split_nl_no_nl.
Qed.

(** X4.  The text of every yielded tuple occurs verbatim in the document:
    the scanner copies, it never rewrites. *)
Theorem extracted_text_is_verbatim (content : string) :
  Forall (fun b =>
            exists before after,
              content = (before ++ block_text b ++ after)%string)
         (extract_rust_blocks content).
Proof.
  eapply Forall_impl; [|apply scan_lines_spans].
  intros b Hs.
  destruct (span_body _ _ Hs) as (pre & o & body & rest & Hl & _ & ->).
  rewrite <- (join_split content), Hl.
  replace (pre ++ o :: body ++ rest) with ((pre ++ [o]) ++ body ++ rest)
    by (rewrite <- app_assoc; reflexivity).
  apply text_within. now destruct pre.
Qed.

(** X6.  When a document does not end inside a block, the scan of that
    document followed by a newline and a second document is the scan of
    the first followed by the scan of the second with its line numbers
    moved by the number of lines of the first. *)
Theorem scan_of_two_documents (first second : string) :
  in_block (final_state first) = false ->
  extract_rust_blocks (first ++ lf ++ second) =
  extract_rust_blocks first
    ++ map (shift (length (split_nl first))) (extract_rust_blocks second).
Proof.
  intros Hout. unfold extract_rust_blocks, scan_lines.
  rewrite split_nl_app_lf, scan_from_app.
  rewrite (scan_from_outside _ _ _ Hout).
  replace (1 + length (split_nl first))
    with (length (split_nl first) + 1) by lia.
  rewrite scan_from_shift. f_equal.
  unfold final_state in Hout. unfold scan_from.
  destruct (loop init 1 (split_nl first)) as [s o]. simpl in Hout |- *.
  unfold at_eof. rewrite Hout. now rewrite app_nil_r.
Qed.

Lemma scan_of_two_documents_witness :
  extract_rust_blocks
    (("a" ++ lf ++ "```rust" ++ lf ++ "x" ++ lf ++ "```") ++ lf
      ++ ("```Rust,ignore" ++ lf ++ "y"))
  = [(2, "", "x"); (5, "ignore", "y")].
Proof.
  apply (scan_of_two_documents
           ("a" ++ lf ++ "```rust" ++ lf ++ "x" ++ lf ++ "```")
           ("```Rust,ignore" ++ lf ++ "y")).
  reflexivity.
Defined.

(** X7.  Scanning the text of a yielded tuple again yields nothing: the
    extracted content holds no block of its own. *)
Theorem rescan_of_extracted_text_is_empty (content : string) :
  Forall (fun b => extract_rust_blocks (block_text b) = [])
         (extract_rust_blocks content).
Proof.
  eapply Forall_impl; [|apply scan_lines_spans].
  intros b Hs. unfold extract_rust_blocks at 1.
  apply scan_lines_no_open.
  eapply Forall_impl; [exact plain_not_open|].
  exact (block_text_plain _ _ (split_nl_no_nl content) Hs).
Qed.

(** X8.  Exit status 0 means complete output: a run of [main] that ends
    with status 0 had two arguments and read its file, every record of
    the blocks of that file was written on stdout, and the script printed
    nothing on stderr - whatever the standard output did. *)
Theorem exit_zero_means_complete_output
        (argv : list string) (read : string -> Cli.read_result)
        (env : Cli.stdout_env) :
  Cli.exit_status (Cli.ending (Cli.main argv read env)) = 0 ->
  exists prog path content,
    argv = [prog; path]
    /\ read path = Cli.ReadOk content
    /\ Cli.stdout (Cli.main argv read env)
       = records (extract_rust_blocks content)
    /\ Cli.stderr (Cli.main argv read env) = EmptyString.
Proof.
  destruct argv as [|prog [|path [|x xs]]]; try discriminate.
  unfold Cli.main. destruct (read path) as [content|e] eqn:E.
  - pose proof (write_all_complete env 0
                  (map Cli.record_of (extract_rust_blocks content))) as Hw.
    destruct (Cli.write_all env 0
                (map Cli.record_of (extract_rust_blocks content)))
      as [w [e|]]; simpl in *.
    + destruct (map Cli.record_of (extract_rust_blocks content));
        [discriminate|destruct (Cli.flush_fails env); discriminate].
    + intros _. exists prog, path, content.
      split; [reflexivity|]. split; [exact E|].
      split; [now apply Hw|reflexivity].
  - destruct e; discriminate.
Qed.

Lemma exit_zero_means_complete_output_witness :
  exists prog path content,
    ["extract-rust-blocks.py"; "doc.md"] = [prog; path]
    /\ Cli.ReadOk ("```rust" ++ lf ++ "x" ++ lf ++ "```")
       = Cli.ReadOk content
    /\ Cli.stdout
         (Cli.main ["extract-rust-blocks.py"; "doc.md"]
            (fun _ => Cli.ReadOk ("```rust" ++ lf ++ "x" ++ lf ++ "```"))
            Cli.reliable)
       = records (extract_rust_blocks content)
    /\ Cli.stderr
         (Cli.main ["extract-rust-blocks.py"; "doc.md"]
            (fun _ => Cli.ReadOk ("```rust" ++ lf ++ "x" ++ lf ++ "```"))
            Cli.reliable)
       = EmptyString.
Proof.
  apply (exit_zero_means_complete_output
           ["extract-rust-blocks.py"; "doc.md"]
           (fun _ => Cli.ReadOk ("```rust" ++ lf ++ "x" ++ lf ++ "```"))
           Cli.reliable).
  reflexivity.
Defined.

(** X10.  The stream of records determines the tuples: two lists of
    tuples whose attributes hold no tab and whose texts hold no NUL are
    equal when [main] writes the same bytes for them. *)
Theorem records_injective (bs1 bs2 : list block) :
  Forall delimited bs1 -> Forall delimited bs2 ->
  records bs1 = records bs2 -> bs1 = bs2.
Proof.
  intros H1. revert bs2.
  induction H1 as [|b1 bs1 [Ha1 Ht1] _ IH]; intros bs2 H2 E.
  - symmetry in E. apply records_empty in E. now subst.
  - destruct H2 as [|b2 bs2 [Ha2 Ht2] H2].
    + apply records_empty in E. discriminate E.
    + rewrite !records_cons, !record_stream in E.
      apply cut_unique in E; try apply str_of_int_no_tab.
      destruct E as [En E]. apply str_of_int_inj in En.
      apply cut_unique in E; try assumption. destruct E as [Ea E].
      apply cut_unique in E; try assumption. destruct E as [Et E].
      rewrite (IH bs2 H2 E).
      destruct b1 as [[n1 a1] t1], b2 as [[n2 a2] t2].
      unfold start_line, block_attrs, block_text in *. simpl in *.
      now subst.
Qed.

Lemma records_injective_witness :
  [(1, "ignore", "x")] = [(1, "ignore", "x")] :> list block.
Proof.
  apply (records_injective [(1, "ignore", "x")] [(1, "ignore", "x")]).
  - repeat constructor.
  - repeat constructor.
  - reflexivity.
Defined.

(** Without the condition on tabs the stream is ambiguous: a tab in the
    attributes is read as the end of the field. *)
Example tab_in_attributes_is_ambiguous :
  records [(1, ("a" ++ Cli.tab ++ "b")%string, "c")]
  = records [(1, "a", ("b" ++ Cli.tab ++ "c")%string)].
Proof. reflexivity. Qed.

(** X11.  A successful run writes nothing on stdout exactly when the
    document has no block to yield. *)
Theorem stdout_empty_iff_no_block (prog path content : string) :
  Cli.stdout (Cli.main [prog; path] (fun _ => Cli.ReadOk content)
                       Cli.reliable)
  = EmptyString
  <-> extract_rust_blocks content = [].
Proof.
  unfold Cli.main. rewrite write_all_reliable.
  fold (records (extract_rust_blocks content)). simpl.
  apply records_empty.
Qed.

End Further.
